(** * The request-state reducer of the [useReducer] example

    A shallow embedding of the search-box example of README.md
    (section [useReducer], from [type State] to the end of [App]'s effect):
    the tagged unions [State] and [Action], the function [reducer], and the
    effect of [App] that drives it.

    The example is TypeScript, so it is read twice.
    - With its declared types ([State], [Action], [reducer] below): the
      discriminated unions are inductive types and [reducer] is a function
      between them.
    - As the JavaScript that runs once the types are erased (module
      [Runtime]): values are untyped, the [switch] compares strings, and a
      rejection handler receives whatever the promise was rejected with.
      Module [Store] refines this to objects held in a store by reference,
      which is what the absence of side effects is about.

    Module [View] reads what [App] returns, and module [Loading] the custom
    hook [useLoading] of the section after. *)

From stdpp Require Import base list strings.

Open Scope string_scope.
Open Scope list_scope.

(** ** Declared types *)

Module Typed.

(** One element of [HNResponse.hits]:
    [{ title: string; objectID: string; url: string }]. *)
Record Hit : Type := mkHit {
  title : string;
  objectID : string;
  url : string
}.

(** [type HNResponse = { hits: {...}[] }]. *)
Record HNResponse : Type := mkHNResponse {
  hits : list Hit
}.

(** [type State]: a union discriminated by the field [status]; every
    constructor is named after its tag and carries the other fields. *)
Inductive State : Type :=
| status_empty
| status_loading
| status_error (error : string)
| status_success (data : HNResponse).

(** [type Action]: a union discriminated by the field [type]. *)
Inductive Action : Type :=
| type_request
| type_success (results : HNResponse)
| type_failure (error : string).

(** [function reducer(state: State, action: Action): State]: a [switch] on
    [action.type] with one [return] per tag; [state] is never read. *)
Definition reducer (state : State) (action : Action) : State :=
  match action with
  | type_request => status_loading
  | type_success results => status_success results
  | type_failure error => status_error error
  end.

(** The state after a sequence of dispatched actions, oldest first. *)
Definition reduce_all (state : State) (actions : list Action) : State :=
  foldl reducer state actions.

End Typed.

Import Typed.

(** The first property named [k] of a property list. *)
Fixpoint assoc {V : Type} (k : string) (fields : list (string * V)) : option V :=
  match fields with
  | [] => None
  | (k', v) :: rest => if String.eqb k k' then Some v else assoc k rest
  end.

(** ** The JavaScript that runs

    TypeScript's types are erased before the program runs: [reducer] then
    receives whatever [dispatch] is given, and the handlers of the promise
    receive whatever [axios] settles with (the second handler's parameter
    [error] has type [any]). *)

Module Runtime.

#[local] Set Warnings "-register-all".

(** The values the example handles. An object is the list of its own
    properties in the order the literal writes them; no object of the
    example has two properties of one name. *)
Inductive JsVal : Type :=
| JUndefined
| JString (s : string)
| JArray (elements : list JsVal)
| JObject (fields : list (string * JsVal)).

(** The only exception the modelled code can raise: reading a property
    of [undefined]. The source has no [throw] statement. *)
Inductive Exn : Type :=
| TypeError.

(** How the evaluation of an expression or of a function body ends. *)
Inductive Completion (A : Type) : Type :=
| Normal (v : A)
| Throw (e : Exn).
Arguments Normal {A} v.
Arguments Throw {A} e.

Definition is_throw {A : Type} (c : Completion A) : bool :=
  match c with
  | Normal _ => false
  | Throw _ => true
  end.

Definition is_string (v : JsVal) : bool :=
  match v with
  | JString _ => true
  | _ => false
  end.

(** The property read [v.k], for the names the example reads ([type],
    [results], [error], [data]): none of them is a property of a string
    or of an array, an object without the property gives [undefined],
    and [undefined] has no properties at all. *)
Definition get (v : JsVal) (k : string) : Completion JsVal :=
  match v with
  | JUndefined => Throw TypeError
  | JString _ => Normal JUndefined
  | JArray _ => Normal JUndefined
  | JObject fields => Normal (default JUndefined (assoc k fields))
  end.

(** [v === 'tag']: strict equality with a string literal. *)
Definition tag_eq (v : JsVal) (tag : string) : bool :=
  match v with
  | JString s => String.eqb s tag
  | _ => false
  end.

(** [reducer] as it runs: the [switch] compares [action.type] with the
    three literals in turn; it has no [default] clause, so with any other
    value control leaves the [switch] and reaches the end of the function
    body, and the call returns [undefined]. *)
Definition reducer (state action : JsVal) : Completion JsVal :=
  match get action "type" with
  | Throw e => Throw e
  | Normal ty =>
      if tag_eq ty "request" then
        Normal (JObject [("status", JString "loading")])
      else if tag_eq ty "success" then
        match get action "results" with
        | Throw e => Throw e
        | Normal results =>
            Normal (JObject [("status", JString "success"); ("data", results)])
        end
      else if tag_eq ty "failure" then
        match get action "error" with
        | Throw e => Throw e
        | Normal error =>
            Normal (JObject [("status", JString "error"); ("error", error)])
        end
      else Normal JUndefined
  end.

(** *** Values of the declared types, as they are at run time *)

Definition js_of_Hit (h : Hit) : JsVal :=
  JObject [("title", JString (title h));
           ("objectID", JString (objectID h));
           ("url", JString (url h))].

Definition js_of_HNResponse (r : HNResponse) : JsVal :=
  JObject [("hits", JArray (map js_of_Hit (hits r)))].

Definition js_of_State (s : State) : JsVal :=
  match s with
  | status_empty => JObject [("status", JString "empty")]
  | status_loading => JObject [("status", JString "loading")]
  | status_error error =>
      JObject [("status", JString "error"); ("error", JString error)]
  | status_success data =>
      JObject [("status", JString "success"); ("data", js_of_HNResponse data)]
  end.

Definition js_of_Action (a : Action) : JsVal :=
  match a with
  | type_request => JObject [("type", JString "request")]
  | type_success results =>
      JObject [("type", JString "success"); ("results", js_of_HNResponse results)]
  | type_failure error =>
      JObject [("type", JString "failure"); ("error", JString error)]
  end.

(** The three tags the [switch] has a [case] for. *)
Definition known_tag (ty : JsVal) : bool :=
  tag_eq ty "request" || tag_eq ty "success" || tag_eq ty "failure".

End Runtime.

(** ** Objects by reference

    In JavaScript an object is a reference into a store that every holder
    of the reference can write to, and an object literal allocates. Whether
    a call of [reducer] has side effects is a question about that store, so
    [reducer] is read once more, over it. *)

Module Store.

Import Runtime.

(** A value: a primitive, or the address of an object. *)
Inductive val : Type :=
| VUndefined
| VString (s : string)
| VRef (l : nat).

(** An object is the list of its properties; the store lists the objects,
    and the address of an object is its position. *)
Abbreviation object := (list (string * val)).
Abbreviation store := (list (list (string * val))).

Definition tag_eq (v : val) (tag : string) : bool :=
  match v with
  | VString s => String.eqb s tag
  | _ => false
  end.

(** The property read [v.k] in the store [st]. An address outside the store
    names no object; a program cannot hold one (see [wf_val]). *)
Definition get (st : store) (v : val) (k : string) : Completion val :=
  match v with
  | VUndefined => Throw TypeError
  | VString _ => Normal VUndefined
  | VRef l =>
      match st !! l with
      | Some o => Normal (default VUndefined (assoc k o))
      | None => Normal VUndefined
      end
  end.

(** An object literal: the new object goes to the end of the store. *)
Definition alloc (o : object) (st : store) : Completion val * store :=
  (Normal (VRef (length st)), st ++ [o]).

(** [reducer] over the store: it reads properties of [action], allocates
    the object it returns, and contains no assignment. The property [data]
    of a [success] state is the very value (for an object: the very
    reference) that [action.results] holds. *)
Definition reducer (state action : val) (st : store) : Completion val * store :=
  match get st action "type" with
  | Throw e => (Throw e, st)
  | Normal ty =>
      if tag_eq ty "request" then
        alloc [("status", VString "loading")] st
      else if tag_eq ty "success" then
        match get st action "results" with
        | Throw e => (Throw e, st)
        | Normal results =>
            alloc [("status", VString "success"); ("data", results)] st
        end
      else if tag_eq ty "failure" then
        match get st action "error" with
        | Throw e => (Throw e, st)
        | Normal error =>
            alloc [("status", VString "error"); ("error", error)] st
        end
      else (Normal VUndefined, st)
  end.

(** What a caller sees of a value: the primitive itself, or the properties
    of the object it refers to. Two objects allocated by two calls have two
    addresses; they are equal results when they have equal properties. *)
Inductive Seen : Type :=
| SeenUndefined
| SeenString (s : string)
| SeenObject (o : object)
| SeenNothing.

Definition look (st : store) (v : val) : Seen :=
  match v with
  | VUndefined => SeenUndefined
  | VString s => SeenString s
  | VRef l =>
      match st !! l with
      | Some o => SeenObject o
      | None => SeenNothing
      end
  end.

Definition observe (st : store) (c : Completion val) : Completion Seen :=
  match c with
  | Normal v => Normal (look st v)
  | Throw e => Throw e
  end.

(** A value of the store: an address names one of its objects. *)
Definition wf_val (st : store) (v : val) : Prop :=
  match v with
  | VRef l => l < length st
  | _ => True
  end.

(** A closed store: every property of every object is a value of it. *)
Definition wf_store (st : store) : Prop :=
  Forall (Forall (fun kv => wf_val st kv.2)) st.

(** The value [v] of the store, read as a tree down to depth [depth]. *)
Fixpoint reify (depth : nat) (st : store) (v : val) : JsVal :=
  match v with
  | VUndefined => JUndefined
  | VString s => JString s
  | VRef l =>
      match depth with
      | O => JUndefined
      | S depth' =>
          match st !! l with
          | Some o => JObject (map (fun kv => (kv.1, reify depth' st kv.2)) o)
          | None => JUndefined
          end
      end
  end.

End Store.

(** ** The component [App] and its effect

    [App] holds two cells, [query] ([useState]) and [state] ([useReducer]),
    and one effect with the dependency list [[query]]. React runs the effect
    body after the first render and after every render in which [query] has
    changed, calling the cleanup function that the previous run returned
    first. Every run of the body creates a closure of its own: a variable
    [ignore] and the two handlers given to [then], which share it with the
    cleanup function.

    One step of the model is one task of the event loop, run to completion:
    a change of the input (the event handler, the render and the effect it
    causes), or the settling of one of the promises (the handler that
    [then] registered for it). What [App] renders is read in module
    [View]; unmounting is not modelled: the runs considered are those of a
    mounted component. *)

Module Component.

Import Runtime.

(** One run of the effect body: its variable [ignore], the address given
    to [axios], and whether the promise has settled. *)
Record Effect : Type := mkEffect {
  ignore : bool;
  address : string;
  settled : bool
}.

(** The component between two tasks. [effects] lists the runs of the effect
    body, oldest first; the cleanup function React holds is that of the last
    one. [dispatched] records every action given to [dispatch], oldest
    first; [crashed] is set when the reducer raised during a render. *)
Record App : Type := mkApp {
  query : option string;
  state : JsVal;
  effects : list Effect;
  dispatched : list JsVal;
  crashed : option Exn
}.

(** The component as the two hooks initialise it, before any effect:
    [useState<string>()] and [useReducer(reducer, { status: 'empty' })]. *)
Definition initial : App :=
  mkApp None (JObject [("status", JString "empty")]) [] [] None.

(** [dispatch(action)]: React gives the current state and the action to
    [reducer] and stores what it returns. *)
Definition dispatch (action : JsVal) (app : App) : App :=
  match reducer (state app) action with
  | Normal state' =>
      mkApp (query app) state' (effects app)
            (dispatched app ++ [action]) (crashed app)
  | Throw e =>
      mkApp (query app) (state app) (effects app)
            (dispatched app ++ [action]) (Some e)
  end.

(** The template literal
    [`https://hn.algolia.com/api/v1/search?query=${query}`]. *)
Definition search_address (query : option string) : string :=
  ("https://hn.algolia.com/api/v1/search?query=" ++ default "undefined" query)%string.

(** The effect body: [let ignore = false], [dispatch({ type: 'request' })],
    then the call of [axios] and the registration of the two handlers. *)
Definition run_effect (app : App) : App :=
  let app := dispatch (JObject [("type", JString "request")]) app in
  mkApp (query app) (state app)
        (effects app ++ [mkEffect false (search_address (query app)) false])
        (dispatched app) (crashed app).

(** The cleanup function [() => { ignore = true; }] of the last run. *)
Definition run_cleanup (app : App) : App :=
  mkApp (query app) (state app)
        (alter (fun e => mkEffect true (address e) (settled e))
               (pred (length (effects app))) (effects app))
        (dispatched app) (crashed app).

(** The promise of run [n] is settled from now on. *)
Definition settle (n : nat) (app : App) : App :=
  mkApp (query app) (state app)
        (alter (fun e => mkEffect (ignore e) (address e) true) n (effects app))
        (dispatched app) (crashed app).

Inductive Event : Type :=
| Change (value : string)
| Fulfil (n : nat) (results : JsVal)
| Reject (n : nat) (error : JsVal).

(** The first handler:
    [results => { if (!ignore) dispatch({ type: 'success', results: results.data }); }].
    An exception raised in a handler rejects the promise [then] returned,
    which nothing observes. *)
Definition on_fulfilled (e : Effect) (results : JsVal) (app : App) : App :=
  if ignore e then app
  else
    match get results "data" with
    | Normal data =>
        dispatch (JObject [("type", JString "success"); ("results", data)]) app
    | Throw _ => app
    end.

(** The second handler: [error => dispatch({ type: 'failure', error })].
    It does not read [ignore]. *)
Definition on_rejected (e : Effect) (error : JsVal) (app : App) : App :=
  dispatch (JObject [("type", JString "failure"); ("error", error)]) app.

(** A promise settles once: an event for a run that does not exist, or
    whose promise has settled, changes nothing. *)
Definition pending (n : nat) (app : App) : option Effect :=
  match effects app !! n with
  | Some e => if settled e then None else Some e
  | None => None
  end.

(** One task. [Change value] is [onChange] calling [setQuery(e.target.value)]:
    with the value [query] already has, React renders nothing and runs no
    effect; otherwise the dependency has changed, and the cleanup of the
    previous run is followed by a new run of the body. *)
Definition step (app : App) (ev : Event) : App :=
  match crashed app with
  | Some _ => app
  | None =>
    match ev with
    | Change value =>
        if decide (query app = Some value) then app
        else
          run_effect
            (run_cleanup
               (mkApp (Some value) (state app) (effects app)
                      (dispatched app) (crashed app)))
    | Fulfil n results =>
        match pending n app with
        | Some e => on_fulfilled e results (settle n app)
        | None => app
        end
    | Reject n error =>
        match pending n app with
        | Some e => on_rejected e error (settle n app)
        | None => app
        end
    end
  end.

(** [app'] is [app] after [dispatch(action)]: the reducer has produced the
    new state, and no other cell has changed. *)
Inductive dispatches (action : JsVal) (app app' : App) : Prop :=
| dispatches_intro :
    Runtime.reducer (state app) action = Normal (state app') ->
    dispatched app' = dispatched app ++ [action] ->
    query app' = query app ->
    effects app' = effects app ->
    crashed app' = crashed app ->
    dispatches action app app'.

(** The component once mounted: the first render, then the first run of
    the effect. *)
Definition mount : App := run_effect initial.

Definition run (events : list Event) : App := foldl step mount events.

(** The states the component can be in between two tasks. *)
Inductive reachable : App -> Prop :=
| reachable_mount : reachable mount
| reachable_step (app : App) (ev : Event) :
    reachable app -> reachable (step app ev).

(** The state a sequence of actions leads to from [s], each given to
    [reducer] in turn with the state the previous one produced. *)
Definition replay (s : JsVal) (actions : list JsVal) : Completion JsVal :=
  foldl (fun c action =>
           match c with
           | Normal s' => reducer s' action
           | Throw e => Throw e
           end)
        (Normal s) actions.

(** One task either dispatches nothing and leaves the state cell alone, or
    dispatches one action and stores what the reducer returns for it. *)
Definition step_writes (app app' : App) : Prop :=
  (state app' = state app /\ dispatched app' = dispatched app)
  \/ (exists action,
        Runtime.reducer (state app) action = Normal (state app')
        /\ dispatched app' = dispatched app ++ [action]).

(** Run [n] is stale: its cleanup function has been called. *)
Definition stale (n : nat) (app : App) : bool :=
  match effects app !! n with
  | Some e => ignore e
  | None => false
  end.

(** Run [n] is superseded: the query has changed since it started, so a
    later run of the effect exists. *)
Definition superseded (n : nat) (app : App) : Prop :=
  S n < length (effects app).

End Component.

(** ** What [App] renders

    The value [App] returns: the element tree its JSX builds from [query]
    and [state]. What React then does with the tree is not part of the
    example. *)

Module View.

Import Runtime.

#[local] Set Warnings "-register-all".

(** The value of an attribute: a value, or the handler
    [e => setQuery(e.target.value)] (the event [Change] of [Component]). *)
Inductive Attr : Type :=
| AValue (v : JsVal)
| ASetQuery.

(** An element and its children. A child is what the expression in its
    place evaluates to: [false] (of a [&&] whose left side is [false]), any
    other value (JSX text is a string), the array [map] returns, or an
    element. The attributes include [key] as the JSX writes it. *)
Inductive Node : Type :=
| NFalse
| NValue (v : JsVal)
| NArray (items : list Node)
| NElement (tag : string) (attrs : list (string * Attr)) (children : list Node).


Definition bind {A B : Type} (c : Completion A) (k : A -> Completion B)
  : Completion B :=
  match c with
  | Normal v => k v
  | Throw e => Throw e
  end.

(** What [&&] tests: of the values of the example, [undefined] and the
    empty string are falsy; objects and arrays, empty or not, are truthy. *)
Definition truthy (v : JsVal) : bool :=
  match v with
  | JUndefined => false
  | JString s => negb (String.eqb s "")
  | JArray _ => true
  | JObject _ => true
  end.

(** [query], of type [string | undefined], as a value. *)
Definition js_of_query (query : option string) : JsVal :=
  match query with
  | Some s => JString s
  | None => JUndefined
  end.

(** [<input value={query} onChange={e => setQuery(e.target.value)} />]. *)
Definition input (query : option string) : Node :=
  NElement "input" [("value", AValue (js_of_query query)); ("onChange", ASetQuery)] [].

(** The callback of [map]:
    [item => <li key={item.objectID}><a href={item.url}>{item.title}</a></li>]. *)
Definition render_item (item : JsVal) : Completion Node :=
  bind (get item "objectID") (fun objectID =>
  bind (get item "url") (fun url =>
  bind (get item "title") (fun title =>
  Normal (NElement "li" [("key", AValue objectID)]
            [NElement "a" [("href", AValue url)] [NValue title]])))).

(** [Array.prototype.map]: the callback is called on the elements in
    order, and an exception it raises ends the call. *)
Fixpoint map_items (f : JsVal -> Completion Node) (items : list JsVal)
  : Completion (list Node) :=
  match items with
  | [] => Normal []
  | item :: rest =>
      bind (f item) (fun n =>
      bind (map_items f rest) (fun ns => Normal (n :: ns)))
  end.

(** The method call [hits.map(...)]: of the values of the example only an
    array has a method [map]; calling what is not a function raises. *)
Definition call_map (hits : JsVal) (f : JsVal -> Completion Node)
  : Completion Node :=
  match hits with
  | JArray elements => bind (map_items f elements) (fun ns => Normal (NArray ns))
  | _ => Throw TypeError
  end.

(** [state.data && state.data.hits && state.data.hits.map(item => ...)]:
    [a && b] is [a] when [a] is falsy, and [b] otherwise. *)
Definition render_hits (state : JsVal) : Completion Node :=
  bind (get state "data") (fun data1 =>
  if negb (truthy data1) then Normal (NValue data1)
  else
    bind (get state "data") (fun data2 =>
    bind (get data2 "hits") (fun hits1 =>
    if negb (truthy hits1) then Normal (NValue hits1)
    else
      bind (get state "data") (fun data3 =>
      bind (get data3 "hits") (fun hits2 =>
      call_map hits2 render_item))))).

(** The [return] of [App]: a [div] with four children, the [input] and
    the three expressions in braces, evaluated in this order. *)
Definition render (query : option string) (state : JsVal) : Completion Node :=
  bind (get state "status") (fun status1 =>
  let loading :=
    if tag_eq status1 "loading"
    then NElement "span" [] [NValue (JString "Loading...")]
    else NFalse in
  bind (get state "status") (fun status2 =>
  bind (if tag_eq status2 "success"
        then bind (render_hits state) (fun items => Normal (NElement "ul" [] [items]))
        else Normal NFalse) (fun success =>
  bind (get state "status") (fun status3 =>
  bind (if tag_eq status3 "error"
        then bind (get state "error") (fun error =>
             Normal (NElement "span" [] [NValue (JString "Error: "); NValue error]))
        else Normal NFalse) (fun error =>
  Normal (NElement "div" [] [input query; loading; success; error])))))).

(** *** With the declared types

    A [State] is an object, its [data] an object and [hits] an array: all
    truthy, so the two [&&] of the list give their right sides. *)

Definition render_Hit (h : Hit) : Node :=
  NElement "li" [("key", AValue (JString (objectID h)))]
    [NElement "a" [("href", AValue (JString (url h)))] [NValue (JString (title h))]].

Definition render_State (query : option string) (s : State) : Node :=
  NElement "div" []
    [input query;
     match s with
     | status_loading => NElement "span" [] [NValue (JString "Loading...")]
     | _ => NFalse
     end;
     match s with
     | status_success data => NElement "ul" [] [NArray (map render_Hit (hits data))]
     | _ => NFalse
     end;
     match s with
     | status_error error =>
         NElement "span" [] [NValue (JString "Error: "); NValue (JString error)]
     | _ => NFalse
     end].



End View.

(** ** The custom hook [useLoading]

    [useLoading] holds one cell, [isLoading], initially [false]. [load]
    sets it and registers, with [finally], a callback that clears it when
    the promise given to [load] has settled, fulfilled or rejected. A
    promise is named by a number; [load] may be given any promise, also one
    given before or one already settled. The promise [load] returns is not
    modelled. *)

Module Loading.

(** [callbacks] lists the callbacks registered with [finally], oldest
    first: the promise each waits for, and whether it has run. [settled]
    lists the promises that have settled. *)
Record Hook : Type := mkHook {
  isLoading : bool;
  callbacks : list (nat * bool);
  settled : list nat
}.

(** [React.useState(false)], and no call of [load] yet. *)
Definition initial : Hook := mkHook false [] [].

Inductive Event : Type :=
| Load (p : nat)
| Settle (p : nat)
| Finally (j : nat).

(** [load(aPromise)]: [setState(true)], then [aPromise.finally(...)]. *)
Definition load (p : nat) (h : Hook) : Hook :=
  mkHook true (callbacks h ++ [(p, false)]) (settled h).

(** The callback [j] can run: it is registered, has not run, and its
    promise has settled. *)
Definition enabled (j : nat) (h : Hook) : bool :=
  match callbacks h !! j with
  | Some (p, false) => bool_decide (p ∈ settled h)
  | _ => false
  end.

(** The callback [() => setState(false)], which runs once. *)
Definition run_finally (j : nat) (h : Hook) : Hook :=
  mkHook false (alter (fun c => (c.1, true)) j (callbacks h)) (settled h).

(** One step: a call of [load], the settling of a promise (once), or the
    run of a registered callback whose promise has settled. An event that
    cannot happen changes nothing. *)
Definition step (h : Hook) (ev : Event) : Hook :=
  match ev with
  | Load p => load p h
  | Settle p =>
      if bool_decide (p ∈ settled h) then h
      else mkHook (isLoading h) (callbacks h) (p :: settled h)
  | Finally j => if enabled j h then run_finally j h else h
  end.

Definition run (events : list Event) : Hook := foldl step initial events.

(** Some registered callback has not run yet. *)
Definition waiting (h : Hook) : bool :=
  existsb (fun c => negb c.2) (callbacks h).

(** [load] is used for one promise at a time: every call of [load] comes
    when the callbacks registered before have all run. *)
Fixpoint one_at_a_time (h : Hook) (events : list Event) : Prop :=
  match events with
  | [] => True
  | ev :: rest =>
      match ev with
      | Load _ => waiting h = false
      | _ => True
      end
      /\ one_at_a_time (step h ev) rest
  end.

(** What holds between two steps when [load] is used for one promise at a
    time: [isLoading] tells whether a callback is left to run, and only the
    callback registered last can be. *)
Definition in_step (h : Hook) : Prop :=
  isLoading h = waiting h
  /\ forall j p, callbacks h !! j = Some (p, false) -> S j = length (callbacks h).

End Loading.

(** * Properties *)

(** ** The reducer *)

Section Scenarios.

Let hit_A : Hit := mkHit "A" "1" "http://a".

Example scenario_request :
  reducer status_empty type_request = status_loading.
Proof. reflexivity. Qed.

Example scenario_success :
  reducer status_loading (type_success (mkHNResponse [hit_A]))
  = status_success (mkHNResponse [hit_A]).
Proof. reflexivity. Qed.

Example scenario_failure :
  reducer status_loading (type_failure "network error")
  = status_error "network error".
Proof. reflexivity. Qed.

End Scenarios.

Section Reducer.

Import Runtime.

(** On values of the declared types the JavaScript computes what the typed
    reading says, whatever state it is given. *)
Lemma reducer_refines (state : JsVal) (s : State) (a : Action) :
  Runtime.reducer state (js_of_Action a)
  = Normal (js_of_State (Typed.reducer s a)).
Proof. destruct a; reflexivity. Qed.

(** The call raises exactly when [action] is [undefined]. *)
Lemma reducer_throws_iff (state action : JsVal) :
  is_throw (Runtime.reducer state action) = true <-> action = JUndefined.
Proof.
  split.
  - destruct action as [ | s | elements | fields]; try discriminate; [easy|].
    unfold Runtime.reducer; simpl.
    repeat (case (tag_eq _ _); [discriminate|]). discriminate.
  - intros ->. reflexivity.
Qed.

(** With a tag that none of the three [case] clauses matches, the call
    returns [undefined]. *)
Lemma reducer_unknown_tag (state action ty : JsVal) :
  get action "type" = Normal ty ->
  known_tag ty = false ->
  Runtime.reducer state action = Normal JUndefined.
Proof.
  unfold Runtime.reducer, known_tag. intros -> Hty.
  apply orb_false_elim in Hty as [Hty Hfailure].
  apply orb_false_elim in Hty as [Hrequest Hsuccess].
  rewrite Hrequest, Hsuccess, Hfailure. reflexivity.
Qed.

(** No call returns an object whose [status] is ['empty']. *)
Lemma reducer_returns_no_empty (state action : JsVal) :
  Runtime.reducer state action <> Normal (js_of_State status_empty).
Proof.
  unfold Runtime.reducer.
  destruct (get action "type") as [ty | e]; [ | discriminate].
  destruct (tag_eq ty "request"); [discriminate | ].
  destruct (tag_eq ty "success");
    [destruct (get action "results"); discriminate | ].
  destruct (tag_eq ty "failure");
    [destruct (get action "error"); discriminate | ].
  discriminate.
Qed.

(** The state after a non-empty sequence of actions is what the last
    action alone leads to, from any state. *)
Lemma reduce_all_last (s s' : State) (actions : list Action) (a : Action) :
  reduce_all s (actions ++ [a]) = Typed.reducer s' a.
Proof.
  unfold reduce_all. rewrite foldl_app. simpl.
  destruct a; reflexivity.
Qed.

(** C1. From every state, the action [request] leads to [loading]: in the
    typed reading, and in the JavaScript that runs. *)
Theorem reducer_request (s : State) :
  Typed.reducer s type_request = status_loading
  /\ Runtime.reducer (js_of_State s) (js_of_Action type_request)
     = Normal (js_of_State status_loading).
Proof. split; reflexivity. Qed.

(** C2. From every state, the action [success] with the payload [results]
    leads to the state [success] whose [data] is that very payload. *)
Theorem reducer_success (s : State) (results : HNResponse) :
  Typed.reducer s (type_success results) = status_success results
  /\ Runtime.reducer (js_of_State s) (js_of_Action (type_success results))
     = Normal (js_of_State (status_success results)).
Proof. split; reflexivity. Qed.

(** C3. From every state, the action [failure] with the message [message]
    leads to the state [error] whose [error] is that very message. *)
Theorem reducer_failure (s : State) (message : string) :
  Typed.reducer s (type_failure message) = status_error message
  /\ Runtime.reducer (js_of_State s) (js_of_Action (type_failure message))
     = Normal (js_of_State (status_error message)).
Proof. split; reflexivity. Qed.

(** C6. The next state does not depend on the current one: any two states
    are taken to the same state by the same action. At run time this holds
    of any two values given as state and any value given as action. *)
Theorem reducer_ignores_state :
  (forall (s1 s2 : State) (a : Action),
      Typed.reducer s1 a = Typed.reducer s2 a)
  /\ (forall state1 state2 action : JsVal,
        Runtime.reducer state1 action = Runtime.reducer state2 action).
Proof.
  split.
  - intros s1 s2 a. destruct a; reflexivity.
  - intros state1 state2 action. reflexivity.
Qed.

(** C10. No action leads to [empty], from any state; hence [empty], the
    initial state, is never entered again once an action has been
    dispatched, whatever actions follow. At run time no call of the
    reducer returns [{ status: 'empty' }] either. *)
Theorem reducer_never_empty :
  (forall (s : State) (a : Action), Typed.reducer s a <> status_empty)
  /\ (forall (s : State) (a : Action) (rest : list Action),
        reduce_all s (a :: rest) <> status_empty)
  /\ (forall state action : JsVal,
        Runtime.reducer state action <> Normal (js_of_State status_empty)).
Proof.
  split; [ | split].
  - intros s a. destruct a; discriminate.
  - intros s a rest.
    destruct (exists_last (l := a :: rest)) as (front & b & ->); [discriminate|].
    rewrite (reduce_all_last s s). destruct b; discriminate.
  - apply reducer_returns_no_empty.
Qed.

(** C4, amended. On its declared domain the reducer is total: for every
    [State] and every [Action] the call returns normally, and what it
    returns is a [State], the one of the typed reading. An action object
    with any other tag is excluded by the type [Action] alone: at run time
    the call raises nothing and returns [undefined]. *)
Theorem reducer_total_on_declared_domain :
  (forall (s : State) (a : Action),
      Runtime.reducer (js_of_State s) (js_of_Action a)
      = Normal (js_of_State (Typed.reducer s a)))
  /\ (forall (state : JsVal) (fields : list (string * JsVal)),
        known_tag (default JUndefined (assoc "type" fields)) = false ->
        Runtime.reducer state (JObject fields) = Normal JUndefined).
Proof.
  split.
  - intros s a. apply reducer_refines.
  - intros state fields Hty.
    apply (reducer_unknown_tag _ _ (default JUndefined (assoc "type" fields)));
      [reflexivity | exact Hty].
Qed.

Lemma reducer_total_on_declared_domain_witness :
  Runtime.reducer (js_of_State status_loading)
                  (JObject [("type", JString "reset")])
  = Normal JUndefined.
Proof.
  apply (proj2 reducer_total_on_declared_domain). reflexivity.
Defined.

(** C4, as stated, fails: the action [{ type: 'reset' }] has a tag the
    reducer does not know, and the call does not fail; it returns
    [undefined]. *)
Lemma reducer_unknown_tag_does_not_fail :
  is_throw (Runtime.reducer (js_of_State status_loading)
                            (JObject [("type", JString "reset")])) = false
  /\ Runtime.reducer (js_of_State status_loading)
                     (JObject [("type", JString "reset")])
     = Normal JUndefined.
Proof. split; reflexivity. Qed.

End Reducer.

(** ** The component *)

Section ComponentFacts.

Import Runtime Component.

Lemma run_snoc (events : list Event) (ev : Event) :
  run (events ++ [ev]) = step (run events) ev.
Proof. unfold run. rewrite foldl_app. reflexivity. Qed.

Lemma run_reachable (events : list Event) : reachable (run events).
Proof.
  induction events as [ | ev events IH] using rev_ind.
  - apply reachable_mount.
  - rewrite run_snoc. apply reachable_step, IH.
Qed.

Lemma reachable_run (app : App) :
  reachable app -> exists events, app = run events.
Proof.
  induction 1 as [ | app ev _ [events ->]].
  - exists []. reflexivity.
  - exists (events ++ [ev]). symmetry. apply run_snoc.
Qed.

(** Every action the component dispatches is an object literal, so the
    reducer returns normally: [dispatch] stores what it returns and
    records the action. *)
Lemma dispatch_object (fields : list (string * JsVal)) (app : App) :
  exists state',
    Runtime.reducer (state app) (JObject fields) = Normal state'
    /\ dispatch (JObject fields) app
       = mkApp (query app) state' (effects app)
               (dispatched app ++ [JObject fields]) (crashed app).
Proof.
  unfold dispatch.
  destruct (Runtime.reducer (state app) (JObject fields)) as [state' | e] eqn:E.
  - exists state'. split; reflexivity.
  - assert (H : is_throw (Runtime.reducer (state app) (JObject fields)) = true)
      by (rewrite E; reflexivity).
    apply reducer_throws_iff in H. discriminate.
Qed.

Lemma dispatch_dispatches (fields : list (string * JsVal)) (app : App) :
  dispatches (JObject fields) app (dispatch (JObject fields) app).
Proof.
  destruct (dispatch_object fields app) as (state' & Hred & ->).
  constructor; simpl; auto.
Qed.

Lemma step_cases (app : App) (ev : Event) :
  crashed app = None ->
  crashed (step app ev) = None /\ step_writes app (step app ev).
Proof.
  intros Hcrashed. unfold step. rewrite Hcrashed.
  destruct ev as [value | n results | n error].
  - destruct (decide (query app = Some value)) as [_ | _].
    + split; [exact Hcrashed | left; split; reflexivity].
    + unfold run_effect.
      match goal with
      | |- context [dispatch (JObject ?f) ?a] =>
          destruct (dispatch_dispatches f a) as [Hred Hlog _ _ Hcr]
      end.
      simpl in *. split; [congruence | right; eauto].
  - destruct (pending n app) as [e | ];
      [ | split; [exact Hcrashed | left; split; reflexivity]].
    unfold on_fulfilled.
    destruct (ignore e);
      [split; [exact Hcrashed | left; split; reflexivity] | ].
    destruct (get results "data") as [data | exn];
      [ | split; [exact Hcrashed | left; split; reflexivity]].
    match goal with
    | |- context [dispatch (JObject ?f) ?a] =>
        destruct (dispatch_dispatches f a) as [Hred Hlog _ _ Hcr]
    end.
    simpl in *. split; [congruence | right; eauto].
  - destruct (pending n app) as [e | ];
      [ | split; [exact Hcrashed | left; split; reflexivity]].
    unfold on_rejected.
    match goal with
    | |- context [dispatch (JObject ?f) ?a] =>
        destruct (dispatch_dispatches f a) as [Hred Hlog _ _ Hcr]
    end.
    simpl in *. split; [congruence | right; eauto].
Qed.

Lemma replay_snoc (s : JsVal) (actions : list JsVal) (action : JsVal) :
  replay s (actions ++ [action])
  = match replay s actions with
    | Normal s' => Runtime.reducer s' action
    | Throw e => Throw e
    end.
Proof. unfold replay. rewrite foldl_app. reflexivity. Qed.

(** Between two tasks the component has not crashed, and its state is
    what the actions dispatched so far lead to from the initial state. *)
Lemma reachable_replay (app : App) :
  reachable app ->
  crashed app = None
  /\ replay (state initial) (dispatched app) = Normal (state app).
Proof.
  induction 1 as [ | app ev _ [Hcrashed Hreplay]].
  - split; reflexivity.
  - destruct (step_cases app ev Hcrashed) as [Hcr [[Hst Hlog] | (a & Hred & Hlog)]].
    + split; [exact Hcr | ]. rewrite Hlog, Hst. exact Hreplay.
    + split; [exact Hcr | ]. rewrite Hlog, replay_snoc, Hreplay. exact Hred.
Qed.

(** C8. The state cell is created holding [{ status: 'empty' }], and it is
    written by nothing but [dispatch]: a task that dispatches nothing
    leaves it as it was, a task that dispatches an action stores what
    [reducer] returns for it, and so after any sequence of tasks the state
    is what the dispatched actions lead to from [empty] through
    [reducer]. *)
Theorem state_written_only_through_reducer :
  state initial = js_of_State status_empty
  /\ (forall (events : list Event) (ev : Event),
        step_writes (run events) (run (events ++ [ev])))
  /\ (forall events : list Event,
        replay (js_of_State status_empty) (dispatched (run events))
        = Normal (state (run events))).
Proof.
  split; [reflexivity | split].
  - intros events ev. rewrite run_snoc.
    apply step_cases, reachable_replay, run_reachable.
  - intros events. apply (reachable_replay _ (run_reachable events)).
Qed.

(** Once mounted, the component has dispatched at least one action, and
    its state is never [{ status: 'empty' }] again. *)
Lemma mounted_never_empty (events : list Event) :
  state (run events) <> js_of_State status_empty.
Proof.
  assert (Hlog : forall app, reachable app -> dispatched app <> []).
  { induction 1 as [ | app ev Hreach IH]; [discriminate | ].
    destruct (reachable_replay app Hreach) as [Hcrashed _].
    destruct (step_cases app ev Hcrashed) as [_ [[_ ->] | (a & _ & ->)]];
      [exact IH | ].
    intros Hnil. apply app_eq_nil in Hnil as [_ Hnil]. discriminate. }
  pose proof (run_reachable events) as Hreach.
  destruct (reachable_replay _ Hreach) as [_ Hreplay].
  destruct (exists_last (Hlog _ Hreach)) as (front & a & Hfront).
  rewrite Hfront, replay_snoc in Hreplay. intros Hempty.
  destruct (replay (state initial) front) as [s' | e]; [ | discriminate].
  rewrite Hempty in Hreplay. exact (reducer_returns_no_empty _ _ Hreplay).
Qed.

(** *** Stale responses *)

(** What one task does to the runs of the effect: it marks one of them
    settled, or (a change of the query) calls the cleanup of the last one
    and starts a new one. *)
Lemma step_effects (app : App) (ev : Event) :
  (exists (f : Effect -> Effect) (n : nat),
      (forall e, ignore (f e) = ignore e)
      /\ effects (step app ev) = alter f n (effects app))
  \/ (exists value,
        ev = Change value
        /\ effects (step app ev)
           = alter (fun e => mkEffect true (address e) (settled e))
                   (pred (length (effects app))) (effects app)
             ++ [mkEffect false (search_address (Some value)) false]).
Proof.
  assert (Hsame : forall app', effects app' = effects app ->
            exists (f : Effect -> Effect) (n : nat),
              (forall e, ignore (f e) = ignore e)
              /\ effects app' = alter f n (effects app)).
  { intros app' ->. exists id, 0. split; [reflexivity | ].
    symmetry. apply list_alter_id. reflexivity. }
  assert (Hsettle : forall n app',
            effects app' = effects (settle n app) ->
            exists (f : Effect -> Effect) (n : nat),
              (forall e, ignore (f e) = ignore e)
              /\ effects app' = alter f n (effects app)).
  { intros n app' ->. eexists _, n. split; [ | reflexivity]. reflexivity. }
  unfold step. destruct (crashed app); [left; apply Hsame; reflexivity | ].
  destruct ev as [value | n results | n error].
  - destruct (decide (query app = Some value)); [left; apply Hsame; reflexivity | ].
    right. exists value. split; [reflexivity | ].
    reflexivity.
  - left. destruct (pending n app) as [e | ]; [ | apply Hsame; reflexivity].
    apply (Hsettle n). unfold on_fulfilled.
    destruct (ignore e); [reflexivity | ].
    destruct (get results "data"); [ | reflexivity].
    match goal with
    | |- context [dispatch (JObject ?f) ?a] =>
        destruct (dispatch_dispatches f a) as [_ _ _ He _]
    end.
    exact He.
  - left. destruct (pending n app) as [e | ]; [ | apply Hsame; reflexivity].
    apply (Hsettle n). unfold on_rejected.
    match goal with
    | |- context [dispatch (JObject ?f) ?a] =>
        destruct (dispatch_dispatches f a) as [_ _ _ He _]
    end.
    exact He.
Qed.

(** Between two tasks, [ignore] is set in the closure of every run of the
    effect but the last one. *)
Lemma reachable_ignore (app : App) :
  reachable app ->
  forall (n : nat) (e : Effect),
    effects app !! n = Some e ->
    ignore e = bool_decide (S n < length (effects app)).
Proof.
  induction 1 as [ | app ev _ IH]; intros n e Hn.
  - destruct n as [ | n]; [ | discriminate]. injection Hn as <-. reflexivity.
  - destruct (step_effects app ev) as [(f & k & Hf & Heff) | (value & _ & Heff)];
      rewrite Heff in Hn |- *; clear Heff.
    + rewrite length_alter. rewrite list_lookup_alter in Hn.
      destruct (decide (k = n)) as [-> | _].
      * destruct (effects app !! n) as [e0 | ] eqn:E; [ | discriminate].
        injection Hn as <-. rewrite Hf. apply IH, E.
      * apply IH, Hn.
    + rewrite length_app, length_alter. simpl.
      destruct (decide (n < length (effects app))) as [Hlt | Hge].
      * rewrite lookup_app_l in Hn by (rewrite length_alter; exact Hlt).
        rewrite bool_decide_eq_true_2 by lia.
        rewrite list_lookup_alter in Hn.
        destruct (decide (pred (length (effects app)) = n)) as [Heq | Hne].
        -- rewrite Heq in Hn.
           destruct (effects app !! n) as [e0 | ]; [ | discriminate].
           injection Hn as <-. reflexivity.
        -- rewrite (IH _ _ Hn). apply bool_decide_eq_true_2. lia.
      * rewrite lookup_app_r in Hn by (rewrite length_alter; lia).
        rewrite length_alter in Hn.
        destruct (n - length (effects app)) as [ | m] eqn:E; [ | discriminate].
        injection Hn as <-. simpl. symmetry. apply bool_decide_eq_false_2. lia.
Qed.

(** A superseded run is stale, in every state the component can reach. *)
Lemma superseded_stale (app : App) (n : nat) :
  reachable app -> superseded n app -> stale n app = true.
Proof.
  unfold superseded, stale. intros Hreach Hn.
  destruct (effects app !! n) as [e | ] eqn:E.
  - rewrite (reachable_ignore app Hreach n e E).
    apply bool_decide_eq_true_2, Hn.
  - apply lookup_ge_None in E. lia.
Qed.

(** The first handler of a stale run dispatches nothing. *)
Lemma stale_fulfil (app : App) (n : nat) (results : JsVal) :
  stale n app = true ->
  state (step app (Fulfil n results)) = state app
  /\ dispatched (step app (Fulfil n results)) = dispatched app.
Proof.
  unfold stale, step, pending. intros Hstale.
  destruct (crashed app); [split; reflexivity | ].
  destruct (effects app !! n) as [e | ]; [ | discriminate].
  destruct (settled e); [split; reflexivity | ].
  unfold on_fulfilled. rewrite Hstale. split; reflexivity.
Qed.


(** The part of C7 that holds. When the promise of a superseded run is
    fulfilled, nothing is dispatched and the state stays what it was. *)
Theorem superseded_fulfilment_is_dropped
    (events : list Event) (n : nat) (results : JsVal) :
  superseded n (run events) ->
  state (run (events ++ [Fulfil n results])) = state (run events)
  /\ dispatched (run (events ++ [Fulfil n results])) = dispatched (run events).
Proof.
  intros Hn. rewrite run_snoc.
  apply stale_fulfil, superseded_stale; [apply run_reachable | exact Hn].
Qed.

Lemma superseded_fulfilment_is_dropped_witness :
  state (run ([Change "a"; Change "b"]
              ++ [Fulfil 1 (JObject [("data", JObject [("hits", JArray [])])])]))
  = state (run [Change "a"; Change "b"])
  /\ dispatched (run ([Change "a"; Change "b"]
                      ++ [Fulfil 1 (JObject [("data", JObject [("hits", JArray [])])])]))
     = dispatched (run [Change "a"; Change "b"]).
Proof.
  apply (superseded_fulfilment_is_dropped [Change "a"; Change "b"] 1).
  unfold superseded. simpl. lia.
Defined.

(** C7 fails on the rejection path. The query goes from nothing to "a" and
    then to "b"; the request for "a" (run 1) is superseded, and the state
    is [loading] for "b". When the promise of run 1 is then rejected, the
    second handler dispatches [failure] all the same, and the state
    becomes [error]. *)
Theorem superseded_rejection_is_dispatched :
  let reason := JObject [("message", JString "Network Error")] in
  let app := run [Change "a"; Change "b"] in
  let app' := run [Change "a"; Change "b"; Reject 1 reason] in
  superseded 1 app
  /\ stale 1 app = true
  /\ state app = js_of_State status_loading
  /\ dispatched app'
     = dispatched app ++ [JObject [("type", JString "failure"); ("error", reason)]]
  /\ state app' = JObject [("status", JString "error"); ("error", reason)].
Proof.
  cbv zeta. split; [unfold superseded; simpl; lia | ].
  repeat split; reflexivity.
Qed.

(** *** What a failure carries *)

(** C9 fails when the promise is rejected with a value that is not a
    string, as [axios] does: the handler passes the value on as it is, so
    the [error] of the state is the rejection value itself, here an error
    object, and not a string. *)
Theorem rejection_value_is_stored_unconverted :
  let reason := JObject [("message", JString "Network Error")] in
  let app := run [Reject 0 reason] in
  state app = JObject [("status", JString "error"); ("error", reason)]
  /\ get (state app) "error" = Normal reason
  /\ is_string reason = false.
Proof. cbv zeta. repeat split; reflexivity. Qed.

End ComponentFacts.

(** ** The reducer and the store *)

Section StoreReducer.

Import Runtime Store.

(** The call on an action that is an object of the store, by the
    properties of that object. *)
Lemma reducer_ref (st : store) (state : val) (l : nat) (o : object) :
  st !! l = Some o ->
  Store.reducer state (VRef l) st
  = if Store.tag_eq (default VUndefined (assoc "type" o)) "request" then
      alloc [("status", VString "loading")] st
    else if Store.tag_eq (default VUndefined (assoc "type" o)) "success" then
      alloc [("status", VString "success");
             ("data", default VUndefined (assoc "results" o))] st
    else if Store.tag_eq (default VUndefined (assoc "type" o)) "failure" then
      alloc [("status", VString "error");
             ("error", default VUndefined (assoc "error" o))] st
    else (Normal VUndefined, st).
Proof. intros E. unfold Store.reducer, Store.get. rewrite E. reflexivity. Qed.

(** Without an object to read, there is no tag: nothing is allocated. *)
Lemma reducer_no_object (st : store) (state action : val) :
  (forall l, action = VRef l -> st !! l = None) ->
  Store.reducer state action st
  = (match action with VUndefined => Throw TypeError | _ => Normal VUndefined end,
     st).
Proof.
  intros Hnone. destruct action as [ | s | l]; try reflexivity.
  unfold Store.reducer, Store.get. rewrite (Hnone l eq_refl). reflexivity.
Qed.

(** Two objects allocated one after the other from one literal are two
    objects with the same properties. *)
Lemma alloc_twice (st : store) (o : object) :
  observe (alloc o (st ++ [o])).2 (Normal (VRef (length st)))
  = observe (alloc o (st ++ [o])).2 (alloc o (st ++ [o])).1.
Proof.
  unfold alloc, observe, look; simpl.
  rewrite (lookup_app_l_Some _ _ _ o) by (apply list_lookup_middle; reflexivity).
  rewrite list_lookup_middle by reflexivity. reflexivity.
Qed.

(** A call changes no object of the store: the store after the call is the
    store before it, followed by the object allocated, if any. *)
Lemma reducer_extends (st : store) (state action : val) :
  st `prefix_of` (Store.reducer state action st).2.
Proof.
  destruct action as [ | s | l]; try (exists []; symmetry; apply app_nil_r).
  destruct (st !! l) as [o | ] eqn:E.
  - rewrite (reducer_ref st state l o E).
    repeat (case (Store.tag_eq _ _); [eexists; reflexivity | ]).
    exists []; symmetry; apply app_nil_r.
  - rewrite reducer_no_object by (intros ? [= <-]; exact E).
    exists []; symmetry; apply app_nil_r.
Qed.

(** C5. Two calls of the reducer with the same arguments, one after the
    other, give equal results (the same exception, the same primitive, or
    two objects with the same properties), and neither changes anything
    that was in the store: after each call the store is the store before
    it, with at most the returned object added. *)
Theorem reducer_pure (st : store) (state action : val) :
  let first := Store.reducer state action st in
  let second := Store.reducer state action first.2 in
  st `prefix_of` first.2
  /\ first.2 `prefix_of` second.2
  /\ observe second.2 first.1 = observe second.2 second.1.
Proof.
  cbv zeta.
  split; [apply reducer_extends | split; [apply reducer_extends | ]].
  destruct (match action with VRef l => st !! l | _ => None end)
    as [o | ] eqn:E.
  - destruct action as [ | s | l]; try discriminate.
    rewrite (reducer_ref st state l o E).
    assert (E' : forall o', (st ++ [o']) !! l = Some o)
      by (intros o'; apply lookup_app_l_Some, E).
    destruct (Store.tag_eq _ "request") eqn:T1;
      [ | destruct (Store.tag_eq _ "success") eqn:T2;
          [ | destruct (Store.tag_eq _ "failure") eqn:T3]];
      unfold alloc; simpl;
      try (rewrite (reducer_ref _ state l o (E' _)), ?T1, ?T2, ?T3;
           apply alloc_twice).
    rewrite (reducer_ref _ state l o E), T1, T2, T3. reflexivity.
  - rewrite !reducer_no_object;
      solve [ reflexivity
            | intros l ->; simpl; rewrite ?reducer_no_object;
              solve [exact E | intros ? [= <-]; exact E] ].
Qed.

(** *** The store and the trees *)

Lemma assoc_map {V W : Type} (f : V -> W) (k : string) (o : list (string * V)) :
  assoc k (map (fun kv => (kv.1, f kv.2)) o) = option_map f (assoc k o).
Proof.
  induction o as [ | [k' v] o IH]; simpl; [reflexivity | ].
  destruct (String.eqb k k'); [reflexivity | exact IH].
Qed.

Lemma reify_tag (depth : nat) (st : store) (v : val) (tag : string) :
  Runtime.tag_eq (reify depth st v) tag = Store.tag_eq v tag.
Proof.
  destruct v as [ | s | l]; destruct depth; simpl; try reflexivity.
  destruct (st !! l); reflexivity.
Qed.

(** Reading a property of an object of the store, as a tree. *)
Lemma reify_field (depth : nat) (st : store) (k : string) (o : object) :
  default JUndefined
    (assoc k (map (fun kv => (kv.1, reify depth st kv.2)) o))
  = reify depth st (default VUndefined (assoc k o)).
Proof.
  rewrite assoc_map. destruct (assoc k o); simpl; [reflexivity | ].
  destruct depth; reflexivity.
Qed.

(** In a closed store, the tree of a value does not change when objects
    are added to the store. *)
Lemma reify_frame (depth : nat) (st ext : store) (v : val) :
  wf_store st -> wf_val st v -> reify depth (st ++ ext) v = reify depth st v.
Proof.
  intros Hst. revert v.
  induction depth as [ | depth IH]; intros [ | s | l] Hv; try reflexivity.
  simpl in Hv |- *.
  destruct (lookup_lt_is_Some_2 st l Hv) as [o E].
  rewrite (lookup_app_l_Some _ _ _ _ E), E. f_equal.
  apply map_ext_Forall.
  assert (Ho : Forall (fun kv : string * val => wf_val st kv.2) o)
    by (exact (proj1 (Forall_lookup _ _) Hst l o E)).
  apply (Forall_impl _ _ _ Ho). intros kv Hkv. f_equal. apply IH, Hkv.
Qed.

(** The reducer over the store computes what the reducer over trees
    computes: on the tree of the action it returns the tree of the value
    returned over the store, read in the store after the call. *)
Lemma reducer_reify (depth : nat) (st : store) (state action : val) :
  wf_store st ->
  wf_val st action ->
  Runtime.reducer (reify depth st state) (reify (S depth) st action)
  = match (Store.reducer state action st).1 with
    | Normal v => Normal (reify (S depth) (Store.reducer state action st).2 v)
    | Throw e => Throw e
    end.
Proof.
  intros Hst Haction.
  destruct action as [ | s | l]; try reflexivity.
  simpl in Haction. destruct (lookup_lt_is_Some_2 st l Haction) as [o E].
  assert (Ho : Forall (fun kv : string * val => wf_val st kv.2) o)
    by (exact (proj1 (Forall_lookup _ _) Hst l o E)).
  assert (Hfield : forall k, wf_val st (default VUndefined (assoc k o))).
  { intros k. clear E. induction Ho as [ | [k' v] o' Hkv _ IHo]; simpl; [exact I | ].
    destruct (String.eqb k k'); [exact Hkv | exact IHo]. }
  rewrite (reducer_ref st state l o E).
  unfold Runtime.reducer. simpl reify. rewrite E. unfold Runtime.get.
  rewrite !reify_field, !reify_tag.
  repeat (case (Store.tag_eq _ _);
          [ unfold alloc; simpl; rewrite list_lookup_middle by reflexivity;
            simpl; rewrite ?(reify_frame depth st _ _ Hst (Hfield _));
            destruct depth; reflexivity | ]).
  reflexivity.
Qed.

End StoreReducer.

(** * Further properties of the component *)

Section ComponentRuns.

Import Runtime Component.

(** The runs of the effect after one task. *)
Lemma step_runs (app : App) (ev : Event) :
  crashed app = None ->
  effects (step app ev)
  = match ev with
    | Change value =>
        if decide (query app = Some value) then effects app
        else
          alter (fun e => mkEffect true (address e) (settled e))
                (pred (length (effects app))) (effects app)
          ++ [mkEffect false (search_address (Some value)) false]
    | Fulfil n _ | Reject n _ =>
        match pending n app with
        | Some _ =>
            alter (fun e => mkEffect (ignore e) (address e) true) n (effects app)
        | None => effects app
        end
    end.
Proof.
  intros Hcrashed. unfold step. rewrite Hcrashed.
  destruct ev as [value | n results | n error].
  - destruct (decide (query app = Some value)); reflexivity.
  - destruct (pending n app) as [e | ]; [ | reflexivity].
    unfold on_fulfilled. destruct (ignore e); [reflexivity | ].
    destruct (get results "data"); [ | reflexivity].
    match goal with
    | |- context [dispatch (JObject ?f) ?a] =>
        destruct (dispatch_dispatches f a) as [_ _ _ He _]
    end.
    exact He.
  - destruct (pending n app) as [e | ]; [ | reflexivity].
    unfold on_rejected.
    match goal with
    | |- context [dispatch (JObject ?f) ?a] =>
        destruct (dispatch_dispatches f a) as [_ _ _ He _]
    end.
    exact He.
Qed.


Lemma reachable_crashed (app : App) : reachable app -> crashed app = None.
Proof. intros H. apply (reachable_replay app H). Qed.



(** A change of the input to a text the query does not hold starts
    exactly one new run of the effect, for the new text, dispatches
    exactly [request], and leaves the state [loading]; a change to the text
    the query already holds does nothing at all. *)
Theorem change_starts_one_request (events : list Event) (value : string) :
  let app := run events in
  let app' := run (events ++ [Change value]) in
  if decide (query app = Some value) then app' = app
  else
    query app' = Some value
    /\ length (effects app') = S (length (effects app))
    /\ last (effects app') = Some (mkEffect false (search_address (Some value)) false)
    /\ dispatched app' = dispatched app ++ [JObject [("type", JString "request")]]
    /\ state app' = JObject [("status", JString "loading")].
Proof.
  cbv zeta. rewrite run_snoc.
  pose proof (reachable_crashed _ (run_reachable events)) as Hcrashed.
  unfold step. rewrite Hcrashed.
  destruct (decide (query (run events) = Some value)) as [_ | _]; [reflexivity | ].
  simpl. rewrite length_app, length_alter, last_snoc. simpl.
  split; [reflexivity | split; [lia | split; [reflexivity | split; reflexivity]]].
Qed.

Lemma reachable_pending_latest (app : App) :
  reachable app ->
  forall e,
    last (effects app) = Some e ->
    settled e = false ->
    state app = JObject [("status", JString "loading")]
    \/ exists error,
         state app = JObject [("status", JString "error"); ("error", error)].
Proof.
  induction 1 as [ | app ev Hreach IH]; intros e He Hsettled.
  - left. reflexivity.
  - pose proof (reachable_crashed app Hreach) as Hcrashed.
    pose proof (step_runs app ev Hcrashed) as Hruns.
    rewrite Hruns in He. clear Hruns.
    unfold step. rewrite Hcrashed.
    destruct ev as [value | n results | n error].
    + destruct (decide (query app = Some value)) as [_ | _];
        [exact (IH e He Hsettled) | left; reflexivity].
    + unfold pending in *.
      destruct (effects app !! n) as [e0 | ] eqn:En; [ | exact (IH e He Hsettled)].
      destruct (Component.settled e0) eqn:Hs0; [exact (IH e He Hsettled) | ].
      rewrite last_lookup, length_alter, list_lookup_alter in He.
      unfold on_fulfilled.
      destruct (ignore e0) eqn:Hi0.
      * destruct (decide (n = pred (length (effects app)))) as [-> | _].
        -- rewrite (reachable_ignore app Hreach _ _ En) in Hi0.
           apply bool_decide_eq_true_1 in Hi0. lia.
        -- apply (IH e); [rewrite last_lookup; exact He | exact Hsettled].
      * assert (Hn : n = pred (length (effects app))).
        { rewrite (reachable_ignore app Hreach _ _ En) in Hi0.
          apply bool_decide_eq_false_1 in Hi0.
          apply lookup_lt_Some in En. lia. }
        destruct (decide (n = pred (length (effects app)))) as [_ | Hne];
          [ | contradiction].
        rewrite En in He. injection He as <-. discriminate.
    + unfold pending in *.
      destruct (effects app !! n) as [e0 | ] eqn:En; [ | exact (IH e He Hsettled)].
      destruct (Component.settled e0) eqn:Hs0; [exact (IH e He Hsettled) | ].
      right. exists error. reflexivity.
Qed.

(** While the request for the current query has not settled, the state is
    [loading], or [error] (which a rejection of any request, also a stale
    one, sets): the results of an earlier query are not in the state. *)
Theorem pending_request_hides_results (events : list Event) (e : Effect) :
  last (effects (run events)) = Some e ->
  settled e = false ->
  state (run events) = JObject [("status", JString "loading")]
  \/ exists error,
       state (run events)
       = JObject [("status", JString "error"); ("error", error)].
Proof. apply reachable_pending_latest, run_reachable. Qed.

Lemma pending_request_hides_results_witness :
  state (run [Change "a"; Fulfil 1 (JObject [("data", JObject [("hits", JArray [])])]);
              Change "b"])
  = JObject [("status", JString "loading")]
  \/ exists error,
       state (run [Change "a"; Fulfil 1 (JObject [("data", JObject [("hits", JArray [])])]);
                   Change "b"])
       = JObject [("status", JString "error"); ("error", error)].
Proof.
  apply (pending_request_hides_results
           [Change "a"; Fulfil 1 (JObject [("data", JObject [("hits", JArray [])])]);
            Change "b"]
           (mkEffect false (search_address (Some "b")) false));
    reflexivity.
Defined.





(** A promise fulfilled with [undefined] in place of a response: reading
    [results.data] raises inside the handler, nothing is dispatched, and
    the state stays what it was. *)
Theorem fulfilment_without_response_is_lost (events : list Event) (n : nat) :
  state (run (events ++ [Fulfil n JUndefined])) = state (run events)
  /\ dispatched (run (events ++ [Fulfil n JUndefined])) = dispatched (run events).
Proof.
  rewrite run_snoc. unfold step.
  destruct (crashed (run events)); [split; reflexivity | ].
  destruct (pending n (run events)) as [e | ]; [ | split; reflexivity].
  unfold on_fulfilled. destruct (ignore e); split; reflexivity.
Qed.

(** The first request is made before anything is typed, with [query]
    still [undefined]: whatever happens later, the first run of the effect
    has asked for the text "undefined". *)
Theorem first_request_is_for_undefined (events : list Event) :
  exists e,
    effects (run events) !! 0 = Some e
    /\ address e = "https://hn.algolia.com/api/v1/search?query=undefined".
Proof.
  pose proof (run_reachable events) as Hreach.
  induction Hreach as [ | app ev Hreach (e & He & Haddr)].
  - eexists. split; reflexivity.
  - rewrite (step_runs app ev (reachable_crashed app Hreach)).
    assert (Halter : forall (f : Effect -> Effect) k,
              (forall x, address (f x) = address x) ->
              exists e', alter f k (effects app) !! 0 = Some e'
                         /\ address e' = address e).
    { intros f k Hf. rewrite list_lookup_alter.
      destruct (decide (k = 0)) as [-> | _].
      - rewrite He. eexists. split; [reflexivity | apply Hf].
      - exists e. split; [exact He | reflexivity]. }
    destruct ev as [value | n results | n error].
    + destruct (decide (query app = Some value)); [exists e; split; assumption | ].
      destruct (Halter (fun e => mkEffect true (address e) (settled e))
                       (pred (length (effects app))) (fun _ => eq_refl))
        as (e' & He' & Haddr').
      exists e'. split; [apply lookup_app_l_Some, He' | congruence].
    + destruct (pending n app); [ | exists e; split; assumption].
      destruct (Halter (fun e => mkEffect (ignore e) (address e) true) n
                       (fun _ => eq_refl)) as (e' & He' & Haddr').
      exists e'. split; [exact He' | congruence].
    + destruct (pending n app); [ | exists e; split; assumption].
      destruct (Halter (fun e => mkEffect (ignore e) (address e) true) n
                       (fun _ => eq_refl)) as (e' & He' & Haddr').
      exists e'. split; [exact He' | congruence].
Qed.

End ComponentRuns.

(** * What is rendered *)

Section ViewFacts.

Import Runtime View.

Lemma map_items_of_hits (l : list Hit) :
  map_items render_item (map js_of_Hit l) = Normal (map render_Hit l).
Proof.
  induction l as [ | h l IH]; [reflexivity | ].
  simpl. simpl in IH. rewrite IH. reflexivity.
Qed.

(** On a state of the declared type the JSX evaluates without an
    exception, to the view of the typed reading: the input, and the
    loading text, the list with one item per hit in the order of [hits],
    or the error text, according to [status]. *)
Theorem render_of_State (query : option string) (s : State) :
  render query (js_of_State s) = Normal (render_State query s).
Proof.
  destruct s as [ | | error | data]; try reflexivity.
  unfold render, render_hits. simpl.
  pose proof (map_items_of_hits (hits data)) as H. simpl in H.
  rewrite H. reflexivity.
Qed.







(** An action with a tag the reducer does not know is not refused when
    it is dispatched: the reducer returns [undefined] for it, and it is the
    next evaluation of the JSX that raises, reading [state.status]. *)
Theorem unknown_tag_breaks_render
    (query : option string) (state : JsVal) (fields : list (string * JsVal)) :
  known_tag (default JUndefined (assoc "type" fields)) = false ->
  exists state',
    Runtime.reducer state (JObject fields) = Normal state'
    /\ render query state' = Throw TypeError.
Proof.
  intros Hty. exists JUndefined. split; [ | reflexivity].
  apply (reducer_unknown_tag _ _ (default JUndefined (assoc "type" fields)));
    [reflexivity | exact Hty].
Qed.

Lemma unknown_tag_breaks_render_witness :
  exists state',
    Runtime.reducer (js_of_State status_loading)
                    (JObject [("type", JString "reset")]) = Normal state'
    /\ render (Some "a") state' = Throw TypeError.
Proof.
  apply (unknown_tag_breaks_render (Some "a") (js_of_State status_loading)
           [("type", JString "reset")]).
  reflexivity.
Defined.

(** The two guards of the list. A [success] state whose [data] is falsy
    (missing, [undefined] or the empty string), or whose [data] has a
    falsy [hits] (missing, or [data] is not an object), is rendered
    without an exception as a list with no item: the only child of [ul] is
    the falsy value. *)
Theorem render_guards_missing_hits
    (query : option string) (fields : list (string * JsVal)) (data : JsVal) :
  get (JObject fields) "status" = Normal (JString "success") ->
  get (JObject fields) "data" = Normal data ->
  truthy data = false
  \/ (exists hits, get data "hits" = Normal hits /\ truthy hits = false) ->
  exists v,
    truthy v = false
    /\ render query (JObject fields)
       = Normal (NElement "div" []
                   [input query; NFalse; NElement "ul" [] [NValue v]; NFalse]).
Proof.
  simpl. intros [= Hstatus] [= Hdata] Hfalsy.
  unfold render, render_hits. simpl. rewrite Hstatus, Hdata. simpl.
  destruct Hfalsy as [Hd | (hits & Hhits & Hh)].
  - exists data. rewrite Hd. split; reflexivity.
  - destruct (truthy data) eqn:Hd; simpl.
    + exists hits. rewrite Hhits. simpl. rewrite Hh. split; reflexivity.
    + exists data. split; [exact Hd | reflexivity].
Qed.

Lemma render_guards_missing_hits_witness :
  exists v,
    truthy v = false
    /\ render (Some "a")
         (JObject [("status", JString "success"); ("data", JString "")])
       = Normal (NElement "div" []
                   [input (Some "a"); NFalse; NElement "ul" [] [NValue v]; NFalse]).
Proof.
  apply (render_guards_missing_hits (Some "a")
           [("status", JString "success"); ("data", JString "")] (JString ""));
    [reflexivity | reflexivity | left; reflexivity].
Defined.

End ViewFacts.

(** * The component and its view *)

Section ComponentView.

Import Runtime Component View.





End ComponentView.

(** * The hook [useLoading] *)

Section LoadingFacts.

Import Loading.

Lemma loading_run_snoc (events : list Event) (ev : Event) :
  run (events ++ [ev]) = step (run events) ev.
Proof. unfold run. rewrite foldl_app. reflexivity. Qed.

(** When no callback is left to run, every registered callback has run. *)
Lemma waiting_false (h : Hook) (j p : nat) :
  waiting h = false -> callbacks h !! j = Some (p, false) -> False.
Proof.
  unfold waiting. intros Hw Hj.
  assert (H : existsb (fun c : nat * bool => negb c.2) (callbacks h) = true).
  { apply existsb_exists. exists (p, false). split; [ | reflexivity].
    apply list_elem_of_In, list_elem_of_lookup. exists j. exact Hj. }
  congruence.
Qed.

(** While [isLoading] is set, the callback of the last call of [load] has
    not run. *)
Lemma loading_last_callback (events : list Event) :
  isLoading (run events) = true ->
  exists p, last (callbacks (run events)) = Some (p, false).
Proof.
  induction events as [ | ev events IH] using rev_ind; [discriminate | ].
  rewrite loading_run_snoc.
  destruct ev as [p | p | j]; simpl.
  - intros _. exists p. apply last_snoc.
  - destruct (bool_decide (p ∈ settled (run events))); exact IH.
  - destruct (enabled j (run events)); [discriminate | exact IH].
Qed.

(** [isLoading] cannot stay set: once every registered callback has run,
    it is [false], whatever the calls of [load] and the order in which the
    promises settled. *)
Theorem loading_ends (events : list Event) :
  waiting (run events) = false -> isLoading (run events) = false.
Proof.
  intros Hw. destruct (isLoading (run events)) eqn:E; [ | reflexivity].
  destruct (loading_last_callback events E) as [p Hp].
  rewrite last_lookup in Hp. destruct (waiting_false _ _ _ Hw Hp).
Qed.

Lemma loading_ends_witness :
  isLoading (run [Load 1; Load 2; Settle 2; Finally 1; Settle 1; Finally 0]) = false.
Proof.
  apply (loading_ends [Load 1; Load 2; Settle 2; Finally 1; Settle 1; Finally 0]).
  reflexivity.
Defined.

(** [isLoading] does not count. When one callback runs while another
    registered callback has not, [isLoading] becomes [false] although a
    promise given to [load] is still awaited. *)
Theorem loading_cleared_by_first_to_settle
    (events : list Event) (j k p : nat) :
  enabled j (run events) = true ->
  j <> k ->
  callbacks (run events) !! k = Some (p, false) ->
  isLoading (run (events ++ [Finally j])) = false
  /\ waiting (run (events ++ [Finally j])) = true.
Proof.
  intros Hj Hjk Hk. rewrite loading_run_snoc. simpl. rewrite Hj.
  split; [reflexivity | ].
  unfold waiting, run_finally. simpl.
  apply existsb_exists. exists (p, false). split; [ | reflexivity].
  apply list_elem_of_In, list_elem_of_lookup. exists k.
  rewrite list_lookup_alter_ne by exact Hjk. exact Hk.
Qed.

Lemma loading_cleared_by_first_to_settle_witness :
  isLoading (run ([Load 1; Load 2; Settle 1] ++ [Finally 0])) = false
  /\ waiting (run ([Load 1; Load 2; Settle 1] ++ [Finally 0])) = true.
Proof.
  apply (loading_cleared_by_first_to_settle [Load 1; Load 2; Settle 1] 0 1 2);
    [reflexivity | lia | reflexivity].
Defined.

Lemma in_step_preserved (events : list Event) (h : Hook) :
  in_step h -> one_at_a_time h events -> in_step (foldl step h events).
Proof.
  revert h. induction events as [ | ev events IH]; intros h Hh Hevents;
    [exact Hh | ].
  destruct Hevents as [Hev Hevents]. simpl. apply IH; [ | exact Hevents].
  clear IH Hevents. destruct Hh as [Hload Hlast].
  destruct ev as [p | p | j]; simpl.
  - split.
    + unfold waiting. simpl. rewrite existsb_app. simpl.
      symmetry. apply orb_true_r.
    + intros j q Hj. unfold load in *. simpl in *. rewrite length_app. simpl.
      destruct (decide (j < length (callbacks h))) as [Hlt | Hge].
      * rewrite lookup_app_l in Hj by exact Hlt.
        destruct (waiting_false h j q Hev Hj).
      * apply lookup_lt_Some in Hj. rewrite length_app in Hj. simpl in Hj. lia.
  - destruct (bool_decide (p ∈ settled h)); split; assumption.
  - destruct (enabled j h) eqn:Hj; [ | split; assumption].
    unfold enabled in Hj.
    destruct (callbacks h !! j) as [[q [ | ]] | ] eqn:Ej; try discriminate.
    pose proof (Hlast j q Ej) as Hjlast.
    assert (Hnone : forall k q', alter (fun c : nat * bool => (c.1, true)) j (callbacks h) !! k
                                 = Some (q', false) -> False).
    { intros k q' Hk. rewrite list_lookup_alter in Hk.
      destruct (decide (j = k)) as [<- | Hne].
      - rewrite Ej in Hk. discriminate.
      - specialize (Hlast k q' Hk). lia. }
    split.
    + simpl. unfold waiting. simpl.
      destruct (existsb _ _) eqn:E; [ | reflexivity].
      apply existsb_exists in E as ([q' b] & Hin & Hb).
      destruct b; [discriminate | ].
      apply list_elem_of_In, list_elem_of_lookup in Hin as [k Hk].
      destruct (Hnone k q' Hk).
    + intros k q' Hk. destruct (Hnone k q' Hk).
Qed.

(** Used for one promise at a time, the hook is exact: after any sequence
    of steps [isLoading] is set exactly when a promise given to [load] has
    a callback that has not run. *)
Theorem loading_one_at_a_time (events : list Event) :
  one_at_a_time initial events ->
  isLoading (run events) = waiting (run events).
Proof.
  intros Hevents.
  apply (in_step_preserved events initial); [ | exact Hevents].
  split; [reflexivity | intros j p Hj; discriminate].
Qed.

Lemma loading_one_at_a_time_witness :
  isLoading (run [Load 1; Settle 1; Finally 0; Load 2])
  = waiting (run [Load 1; Settle 1; Finally 0; Load 2]).
Proof.
  apply (loading_one_at_a_time [Load 1; Settle 1; Finally 0; Load 2]).
  simpl. repeat split; reflexivity.
Defined.

End LoadingFacts.

(** * The reducer, once more *)

Section ReducerEdges.

Import Runtime Component.


(** The last action decides: after a sequence of actions that is not
    empty, the state is the one its last action leads to, whatever the
    state at the start and the actions before. *)
Theorem last_action_decides (s s' : State) (actions : list Action) (a : Action) :
  reduce_all s (actions ++ [a]) = Typed.reducer s' a.
Proof. apply reduce_all_last. Qed.

(** The actions recorded after one task. *)
Lemma step_dispatched (app : App) (ev : Event) :
  crashed app = None ->
  dispatched (step app ev) = dispatched app
  \/ exists action ty,
       dispatched (step app ev) = dispatched app ++ [action]
       /\ get action "type" = Normal ty
       /\ known_tag ty = true.
Proof.
  intros Hcrashed. unfold step. rewrite Hcrashed.
  destruct ev as [value | n results | n error].
  - destruct (decide (query app = Some value)); [left; reflexivity | ].
    right. eexists _, _. split; [reflexivity | split; reflexivity].
  - destruct (pending n app) as [e | ]; [ | left; reflexivity].
    unfold on_fulfilled. destruct (ignore e); [left; reflexivity | ].
    destruct (get results "data") as [data | exn]; [ | left; reflexivity].
    right. eexists _, _. split; [reflexivity | split; reflexivity].
  - destruct (pending n app) as [e | ]; [ | left; reflexivity].
    right. eexists _, _. split; [reflexivity | split; reflexivity].
Qed.

(** The component never dispatches an action the reducer has no [case]
    for: every action it has dispatched, after any sequence of tasks and
    whatever the responses were, is an object whose [type] is one of the
    three tags. The end of the [switch] is not reached from [App]. *)
Theorem component_dispatches_known_tags (events : list Event) :
  Forall (fun action =>
            exists ty, get action "type" = Normal ty /\ known_tag ty = true)
         (dispatched (run events)).
Proof.
  induction events as [ | ev events IH] using rev_ind.
  - repeat constructor. eexists. split; reflexivity.
  - rewrite run_snoc.
    destruct (step_dispatched (run events) ev
                (proj1 (reachable_replay _ (run_reachable events))))
      as [-> | (action & ty & -> & Hty & Hknown)]; [exact IH | ].
    apply Forall_app. split; [exact IH | ].
    constructor; [ | constructor]. exists ty. split; assumption.
Qed.

End ReducerEdges.
